(** * thinc.neural._classes.embed: the [Embed] layer

    A shallow embedding of [src/thinc/neural/_classes/embed.py]: the
    dimension hook [_set_dimensions_if_needed], the bucketed lookup
    [_embed], [predict], [begin_update] with its closure [finish_update],
    and the context manager [use_params].

    Conventions.
    - Array entries are exact integers ([Z]); rounding of machine floats is
      not part of the model.
    - A 2-d array is the list of its rows, a 1-d array a list of entries.
      A list of rows does not record the width of an array that has no
      rows.
    - Python mutates the layer in place and may raise: a method is a
      function from the layer to the layer it leaves behind paired with
      either a value or the exception raised. *)

From Stdlib Require Import ZArith QArith List Lia Bool.
From stdpp Require Import base list gmap.

Local Open Scope Z_scope.

(** ** Exceptions and outcomes *)

Inductive exn : Type :=
| ValueError
| TypeError
| IndexError
| UserError (code : Z).

Inductive outcome (A : Type) : Type :=
| Ret (a : A)
| Raise (e : exn).
Arguments Ret {A} a.
Arguments Raise {A} e.

Definition omap_outcome {A B} (f : A -> B) (o : outcome A) : outcome B :=
  match o with
  | Ret a => Ret (f a)
  | Raise e => Raise e
  end.

Definition obind {A B} (o : outcome A) (k : A -> outcome B) : outcome B :=
  match o with
  | Ret a => k a
  | Raise e => Raise e
  end.

(** ** Arrays *)

Abbreviation vec := (list Z).
Abbreviation matrix := (list (list Z)).

(** [ids % nV] on an integer array: the remainder takes the sign of the
    divisor, and numpy yields 0 for a zero divisor. *)
Definition np_mod (n i : Z) : Z :=
  if n =? 0 then 0 else i mod n.

(** One integer index into an axis of length [n]: negative indices count
    from the end, anything outside [-n, n) is an [IndexError]. *)
Definition norm_index (n : nat) (i : Z) : option nat :=
  if (0 <=? i) && (i <? Z.of_nat n) then Some (Z.to_nat i)
  else if (- Z.of_nat n <=? i) && (i <? 0) then Some (Z.to_nat (Z.of_nat n + i))
  else None.

(** [a[idx]] for an integer index array: a fresh array of the selected rows. *)
Fixpoint getitem (a : matrix) (idx : list Z) : outcome matrix :=
  match idx with
  | [] => Ret []
  | i :: idx' =>
      match norm_index (length a) i ≫= (a !!.) with
      | Some r => obind (getitem a idx') (fun rs => Ret (r :: rs))
      | None => Raise IndexError
      end
  end.

(** [a[idx] = rows] for an integer index array and one row per index: the
    rows are stored one after the other, so where an index repeats the
    last row stored is the one that stays. *)
Fixpoint setitem (a : matrix) (idx : list Z) (rows : matrix) : outcome matrix :=
  match idx, rows with
  | [], [] => Ret a
  | i :: idx', r :: rows' =>
      match norm_index (length a) i with
      | Some k => setitem (<[k:=r]> a) idx' rows'
      | None => Raise IndexError
      end
  | _, _ => Raise ValueError
  end.

(** Broadcasting of the right operand of an in-place operation: an axis of
    length one is repeated, any other mismatch is a [ValueError]. *)
Definition bcast {A} (n : nat) (b : list A) : outcome (list A) :=
  if decide (length b = n) then Ret b
  else match b with
       | [y] => Ret (replicate n y)
       | _ => Raise ValueError
       end.

Definition iadd_row (x y : vec) : outcome vec :=
  obind (bcast (length x) y) (fun y' => Ret (zip_with Z.add x y')).

Fixpoint iadd_rows (a b : matrix) : outcome matrix :=
  match a, b with
  | x :: a', y :: b' =>
      obind (iadd_row x y) (fun r =>
      obind (iadd_rows a' b') (fun rs => Ret (r :: rs)))
  | _, _ => Ret []
  end.

(** [a += b] on 2-d arrays. *)
Definition iadd (a b : matrix) : outcome matrix :=
  obind (bcast (length a) b) (iadd_rows a).

(** [a.T] *)
Fixpoint transpose (a : matrix) : matrix :=
  match a with
  | [] => []
  | [r] => map (fun x => [x]) r
  | r :: a' => zip_with cons r (transpose a')
  end.

(** [a.flatten()]: a copy, rows one after the other. *)
Definition flatten (a : matrix) : vec := concat a.

(** [X.max()]: numpy raises [ValueError] on an empty array. *)
Definition array_max (X : list Z) : outcome Z :=
  match X with
  | [] => Raise ValueError
  | x :: xs => Ret (fold_left Z.max xs x)
  end.

(** ** The array backend [self.ops] *)

Class Ops : Type := {
  batch_dot : matrix -> matrix -> outcome matrix;
  batch_outer : matrix -> matrix -> outcome matrix
}.

(** ** The layer *)

Record Layer : Type := mkLayer {
  is_static : bool;
  nO : Z;
  nM : option Z;
  nV : option Z;
  W : option matrix;
  vectors : option matrix;
  d_W : option matrix;
  d_vectors : option matrix;
  mem_id : Z
}.

Definition set_nV (v : option Z) (l : Layer) : Layer :=
  mkLayer (is_static l) (nO l) (nM l) v (W l) (vectors l) (d_W l)
          (d_vectors l) (mem_id l).
Definition set_W (v : option matrix) (l : Layer) : Layer :=
  mkLayer (is_static l) (nO l) (nM l) (nV l) v (vectors l) (d_W l)
          (d_vectors l) (mem_id l).
Definition set_vectors (v : option matrix) (l : Layer) : Layer :=
  mkLayer (is_static l) (nO l) (nM l) (nV l) (W l) v (d_W l)
          (d_vectors l) (mem_id l).
Definition set_d_W (v : option matrix) (l : Layer) : Layer :=
  mkLayer (is_static l) (nO l) (nM l) (nV l) (W l) (vectors l) v
          (d_vectors l) (mem_id l).
Definition set_d_vectors (v : option matrix) (l : Layer) : Layer :=
  mkLayer (is_static l) (nO l) (nM l) (nV l) (W l) (vectors l) (d_W l)
          v (mem_id l).

(** ** Methods: state passing with exceptions *)

Definition M (A : Type) : Type := Layer -> Layer * outcome A.

Definition ret {A} (a : A) : M A := fun l => (l, Ret a).
Definition raise {A} (e : exn) : M A := fun l => (l, Raise e).
Definition lift {A} (o : outcome A) : M A := fun l => (l, o).
Definition bind {A B} (m : M A) (k : A -> M B) : M B :=
  fun l =>
    match m l with
    | (l', Ret a) => k a l'
    | (l', Raise e) => (l', Raise e)
    end.
Definition gets {A} (f : Layer -> A) : M A := fun l => (l, Ret (f l)).
Definition modify (f : Layer -> Layer) : M unit := fun l => (f l, Ret tt).

Declare Scope layer_scope.
Delimit Scope layer_scope with layer.
Notation "x <~ m ; k" := (bind m (fun x => k))
  (at level 200, m at level 100, k at level 200, right associativity,
   only parsing) : layer_scope.
Notation "m ;; k" := (bind m (fun _ => k))
  (at level 100, k at level 200, right associativity, only parsing)
  : layer_scope.

(** Modelled from the spec: the attribute descriptors of [describe] are not
    part of this file. A tensor exists only once the dimensions of its shape
    are known; reading one that does not exist is an error. *)
Definition tensor (f : Layer -> option matrix) : M matrix :=
  fun l => match f l with
           | Some a => (l, Ret a)
           | None => (l, Raise TypeError)
           end.

(** ** [_set_dimensions_if_needed] *)

Definition _set_dimensions_if_needed (X : list Z) : M unit :=
  (cur <~ gets nV;
   match cur with
   | None =>
       m <~ lift (array_max X);
       let max_id := m + 1 in
       if 10000000 <=? max_id then raise ValueError
       else modify (set_nV (Some max_id))
   | Some _ => ret tt
   end)%layer.

(** ** The parameter store [self._mem]

    The class of the store is not part of this file. The spec gives it a
    flat weight buffer that holds the parameters of the layer and a flat
    gradient buffer that holds their gradients; [W], [vectors], [d_W] and
    [d_vectors] are views into them, so a write to a buffer is a write to
    the tensors. The order of the tensors inside a buffer is not fixed by
    the spec; the projection matrix comes first here. *)

Definition oflat (a : option matrix) : vec := from_option flatten [] a.

(** The entries of [p] cut into rows as long as the rows of [a]. *)
Fixpoint reshape_like (a : matrix) (p : vec) : matrix :=
  match a with
  | [] => []
  | r :: a' => take (length r) p :: reshape_like a' (drop (length r) p)
  end.

(** Modelled from the spec: [self._mem.weights], the full flat parameter
    buffer of the store, which the store class (not in this file) provides. *)
Definition mem_weights (l : Layer) : vec := oflat (W l) ++ oflat (vectors l).

(** Modelled from the spec: [self._mem.gradient], the full flat gradient
    buffer of the store, which the store class (not in this file) provides. *)
Definition mem_gradient (l : Layer) : vec := oflat (d_W l) ++ oflat (d_vectors l).

(** Modelled from the spec: a write of [p] through the view
    [self._mem.weights], the store class not being in this file: it lands in
    [W] and [vectors]. *)
Definition store_weights (p : vec) (l : Layer) : Layer :=
  set_vectors (flip reshape_like (drop (length (oflat (W l))) p) <$> vectors l)
    (set_W (flip reshape_like p <$> W l) l).

(** Modelled from the spec: a write of [p] through the view
    [self._mem.gradient], the store class not being in this file: it lands
    in [d_W] and [d_vectors]. *)
Definition store_gradient (p : vec) (l : Layer) : Layer :=
  set_d_vectors
    (flip reshape_like (drop (length (oflat (d_W l))) p) <$> d_vectors l)
    (set_d_W (flip reshape_like p <$> d_W l) l).

(** [buf[:] = p] on a flat buffer: [p] is broadcast to the length of [buf]. *)
Definition assign_all (buf p : vec) : outcome vec := bcast (length buf) p.

(** What an in-place mutation can leave in a buffer: as many entries as the
    buffer had. *)
Definition inplace (old new : vec) : vec :=
  take (length old) (new ++ drop (length new) old).

(** ** The optimizer callback [sgd(weights, gradient, key=...)]

    It receives two flat buffers and may mutate them in place: it is a
    function to the contents it leaves in the two buffers and to its
    outcome. *)
Definition callback : Type := vec -> vec -> Z -> (vec * vec) * outcome unit.

(** ** Forward pass *)

Definition _embed (ids : list Z) : M matrix :=
  (vectors <~ tensor vectors;
   n <~ gets nV;
   match n with
   | None => raise TypeError
   | Some n => lift (getitem vectors (map (np_mod n) ids))
   end)%layer.

Section WithOps.
Context {ops : Ops}.

Definition predict (ids : list Z) : M matrix :=
  (vectors <~ _embed ids;
   w <~ tensor W;
   dotted <~ lift (batch_dot vectors w);
   ret dotted)%layer.

(** ** Backward pass: the closure returned by [begin_update]; [ids] and
    [vectors] are the variables it captures. The local [n_vectors] of the
    source is never read and is left out. *)
Definition finish_update (ids : list Z) (vectors : matrix)
    (gradients : matrix) (sgd : option callback) : M unit :=
  (dw <~ tensor d_W;
   outer <~ lift (batch_outer gradients vectors);
   dw' <~ lift (iadd dw outer);
   modify (set_d_W (Some dw'));;
   static <~ gets is_static;
   (if negb static then
      w <~ tensor W;
      gradients <~ lift (batch_dot gradients (transpose w));
      d_vectors <~ tensor d_vectors;
      n <~ gets nV;
      match n with
      | None => raise TypeError
      | Some n =>
          let idx := map (np_mod n) ids in
          rows <~ lift (getitem d_vectors idx);
          rows' <~ lift (iadd rows gradients);
          d_vectors' <~ lift (setitem d_vectors idx rows');
          modify (set_d_vectors (Some d_vectors'))
      end
    else ret tt);;
   match sgd with
   | None => ret tt
   | Some sgd =>
       if static then
         w <~ tensor W;
         dw <~ tensor d_W;
         key <~ gets mem_id;
         lift (snd (sgd (flatten w) (flatten dw) key))
       else
         weights <~ gets mem_weights;
         gradient <~ gets mem_gradient;
         key <~ gets mem_id;
         let r := sgd weights gradient key in
         modify (store_weights (inplace weights (fst (fst r))));;
         modify (store_gradient (inplace gradient (snd (fst r))));;
         lift (snd r)
   end)%layer.

Definition begin_update {D : Type} (ids : list Z) (drop : D)
  : M (matrix * (matrix -> option callback -> M unit)) :=
  (vectors <~ _embed ids;
   w <~ tensor W;
   dotted <~ lift (batch_dot vectors w);
   ret (dotted, finish_update ids vectors))%layer.

End WithOps.

(** ** [use_params]: a generator wrapped by [contextlib.contextmanager] *)

(** The generator suspended at its [yield], with the local [backup]. *)
Inductive frame : Type :=
| AtYieldStatic
| AtYield (backup : option vec).

(** Running the generator up to its [yield]. *)
Definition use_params_start (params : gmap Z vec) : M frame :=
  (static <~ gets is_static;
   if static then ret AtYieldStatic
   else
     weights <~ gets mem_weights;
     key <~ gets mem_id;
     match params !! key with
     | Some param =>
         let backup := weights in
         new <~ lift (assign_all weights param);
         modify (store_weights new);;
         ret (AtYield (Some backup))
     | None => ret (AtYield None)
     end)%layer.

(** Resuming it after the block ended normally. [weights] is the view taken
    on entry and [backup] its copy, of the same length: the assignment
    [weights[:] = backup] cannot fail. *)
Definition use_params_resume (f : frame) : M unit :=
  match f with
  | AtYieldStatic => ret tt
  | AtYield None => ret tt
  | AtYield (Some backup) => modify (store_weights backup)
  end.

(** Throwing the exception of the block into it: no [yield] of the source
    is inside a [try], so the exception leaves the generator at once. *)
Definition use_params_throw (f : frame) (e : exn) : M unit := raise e.

(** [with self.use_params(params): body] *)
Definition with_use_params (params : gmap Z vec) (body : M unit) : M unit :=
  fun l =>
    match use_params_start params l with
    | (l1, Raise e) => (l1, Raise e)
    | (l1, Ret f) =>
        match body l1 with
        | (l2, Ret _) => use_params_resume f l2
        | (l2, Raise e) => use_params_throw f e l2
        end
    end.

(** ** Sequences of backward calls *)

(** One call of a closure [finish_update]: the captured [ids] and [vectors],
    then the arguments [gradients] and [sgd]. *)
Record call : Type := mkCall {
  c_ids : list Z;
  c_vectors : matrix;
  c_gradients : matrix;
  c_sgd : option callback
}.

Section Calls.
Context {ops : Ops}.

Definition run_call (l : Layer) (c : call) : Layer :=
  fst (finish_update (c_ids c) (c_vectors c) (c_gradients c) (c_sgd c) l).

(** Calls made one after the other by a caller that carries on after a call
    that raised. *)
Definition run_calls (cs : list call) (l : Layer) : Layer :=
  fold_left run_call cs l.

(** What [self.d_W += self.ops.batch_outer(gradients, vectors)] makes of
    [d_W]; an exception leaves it as it was. *)
Definition outer_acc (d : option matrix) (gradients vectors : matrix)
  : option matrix :=
  match d with
  | Some dw =>
      match obind (batch_outer gradients vectors) (iadd dw) with
      | Ret dw' => Some dw'
      | Raise _ => d
      end
  | None => None
  end.

End Calls.

(** [doubled a0 a1 a2]: three arrays of one shape, the step from [a0] to
    [a2] being twice the step from [a0] to [a1] in every entry. *)
Definition doubled (a0 a1 a2 : matrix) : Prop :=
  Forall3 (Forall3 (fun x0 x1 x2 => x2 - x0 = 2 * (x1 - x0))) a0 a1 a2.

Definition odoubled (o0 o1 o2 : option matrix) : Prop :=
  match o0, o1, o2 with
  | Some a0, Some a1, Some a2 => doubled a0 a1 a2
  | None, None, None => True
  | _, _, _ => False
  end.

(** ** The numpy backend

    [thinc.neural.ops] is not part of this file; the theorems on the
    backward pass hold for every backend, and this one serves the concrete
    runs. A mismatch of the contracted axis is a [ValueError]. *)

Definition dot (u v : vec) : Z := foldr Z.add 0 (zip_with Z.mul u v).

Definition same_width (x y : matrix) : bool :=
  forallb (fun u => forallb (fun v => Nat.eqb (length u) (length v)) y) x.

(** Modelled from the spec: [batch_dot(x, y)] of [thinc.neural.ops], which
    is not in this file: every row of [x] projected through [y], a
    contraction over the second axis of both. *)
Definition np_batch_dot (x y : matrix) : outcome matrix :=
  if same_width x y then Ret (map (fun u => map (dot u) y) x)
  else Raise ValueError.

(** Modelled from the spec: [batch_outer(x, y)] of [thinc.neural.ops], which
    is not in this file: the outer product of the rows of [x] and [y] summed
    over the batch, a contraction over the first axis of both. *)
Definition np_batch_outer (x y : matrix) : outcome matrix :=
  if Nat.eqb (length x) (length y)
  then Ret (map (fun u => map (dot u) (transpose y)) (transpose x))
  else Raise ValueError.

Definition NumpyOps : Ops :=
  {| batch_dot := np_batch_dot; batch_outer := np_batch_outer |}.

(** ** Index arrays seen as row numbers *)

(** [scatter a ks rows]: the rows stored one after the other at the row
    numbers [ks]. *)
Fixpoint scatter (a : matrix) (ks : list nat) (rows : matrix) : matrix :=
  match ks, rows with
  | k :: ks', r :: rows' => scatter (<[k:=r]> a) ks' rows'
  | _, _ => a
  end.

(** The last position of [ks] that holds [k]. *)
Fixpoint last_pos (ks : list nat) (k : nat) : option nat :=
  match ks with
  | [] => None
  | k' :: ks' =>
      match last_pos ks' k with
      | Some j => Some (S j)
      | None => if decide (k' = k) then Some 0%nat else None
      end
  end.

(** ** Batches of other element types

    [predict] and [begin_update] carry no decorator that checks their
    argument (the one above [predict] is commented out), so what becomes of
    a batch that does not hold integers is decided by the two numpy
    operations of [_embed]: the remainder and the indexing. *)

Inductive batch : Type :=
| IntArray (ids : list Z)
| BoolArray (bs : list bool)
| FloatArray (xs : list Q).

(** An index array: integers, or floats, of which only the number matters
    here. *)
Inductive index_array : Type :=
| IntIndex (idx : list Z)
| FloatIndex (len : nat).

(** [ids % nV]: booleans are promoted to the integers 0 and 1, the remainder
    of floats is an array of floats. *)
Definition np_mod_any (n : Z) (b : batch) : index_array :=
  match b with
  | IntArray ids => IntIndex (map (np_mod n) ids)
  | BoolArray bs => IntIndex (map (fun b => np_mod n (Z.b2z b)) bs)
  | FloatArray xs => FloatIndex (length xs)
  end.

(** [a[idx]]: numpy refuses an index array of floats with an [IndexError]. *)
Definition getitem_any (a : matrix) (idx : index_array) : outcome matrix :=
  match idx with
  | IntIndex idx => getitem a idx
  | FloatIndex _ => Raise IndexError
  end.

Definition _embed_any (b : batch) : M matrix :=
  (vectors <~ tensor vectors;
   n <~ gets nV;
   match n with
   | None => raise TypeError
   | Some n => lift (getitem_any vectors (np_mod_any n b))
   end)%layer.

Definition predict_any {ops : Ops} (b : batch) : M matrix :=
  (vectors <~ _embed_any b;
   w <~ tensor W;
   dotted <~ lift (batch_dot vectors w);
   ret dotted)%layer.

(** The forward pass of [begin_update]: the first component of its result. *)
Definition begin_update_any {ops : Ops} {D : Type} (b : batch) (drop : D)
  : M matrix :=
  (vectors <~ _embed_any b;
   w <~ tensor W;
   dotted <~ lift (batch_dot vectors w);
   ret dotted)%layer.

Definition non_integer (b : batch) : Prop :=
  match b with
  | IntArray _ => False
  | _ => True
  end.

(** ** Sample data *)

(** A gradient step that also clears the gradient, as an optimizer does. *)
Definition sgd_step : callback :=
  fun weights gradient _ =>
    ((zip_with Z.sub weights gradient, map (fun _ => 0) gradient), Ret tt).

(** A layer before its first batch: [nO = 4], [nM = 3], no [nV], no tensor. *)
Definition unconfigured : Layer :=
  mkLayer false 4 (Some 3) None None None None None 7.

(** [nO = 4], [nM = 3], [nV = 5], with its embedding table alone. *)
Definition table5 : Layer :=
  mkLayer false 4 (Some 3) (Some 5) None
          (Some [[10; 11; 12]; [20; 21; 22]; [30; 31; 32]; [40; 41; 42];
                 [50; 51; 52]])
          None None 7.

(** [nO = 1], [nM = 1], [nV = 2]. *)
Definition tiny (static : bool) : Layer :=
  mkLayer static 1 (Some 1) (Some 2) (Some [[1]]) (Some [[5]; [7]])
          (Some [[0]]) (Some [[0]; [0]]) 7.

(** Two backward calls, the first with an optimizer. *)
Definition two_calls : list call :=
  [mkCall [0; 2] [[5]; [5]] [[2]; [3]] (Some sgd_step);
   mkCall [1] [[7]] [[4]] None].

(** ** [LSUVinit]

    The refinement [do_lsuv] of [thinc.neural._lsuv] is not part of this
    file and is a parameter: given [W] and the batch, it acts on the layer
    and may raise. *)
Definition LSUVinit (do_lsuv : matrix -> list Z -> M unit) (X : list Z)
  : M (list Z) :=
  fun model =>
    match vectors model, W model with
    | Some _, Some w =>
        (do_lsuv w X;; ret X)%layer model
    | _, _ => (model, Ret X)
    end.

(** The hooks of [@describe.on_data(_set_dimensions_if_needed, LSUVinit)],
    called on a batch in the order the decorator lists them; an exception
    of the first ends the run. *)
Definition on_data (do_lsuv : matrix -> list Z -> M unit) (X : list Z)
  : M unit :=
  (_set_dimensions_if_needed X;;
   _ <~ LSUVinit do_lsuv X;
   ret tt)%layer.

(** The dimension hook called on one batch after the other, by a caller
    that carries on after a batch that was refused. *)
Definition run_hooks (Xs : list (list Z)) (l : Layer) : Layer :=
  fold_left (fun l X => fst (_set_dimensions_if_needed X l)) Xs l.

(** * Properties *)

(** ** Dimension inference *)

Lemma fold_max_ge (xs : list Z) (x : Z) : x <= fold_left Z.max xs x.
Proof.
  revert x; induction xs as [|y ys IH]; intros x; simpl; [lia|].
  etransitivity; [|apply IH]. lia.
Qed.

Lemma fold_max_upper (xs : list Z) (x : Z) :
  forall y, In y xs -> y <= fold_left Z.max xs x.
Proof.
  revert x; induction xs as [|z zs IH]; intros x y []; simpl.
  - subst z. etransitivity; [|apply fold_max_ge]. lia.
  - now apply IH.
Qed.

Lemma fold_max_in (xs : list Z) (x : Z) :
  fold_left Z.max xs x = x \/ In (fold_left Z.max xs x) xs.
Proof.
  revert x; induction xs as [|z zs IH]; intros x; simpl; [now left|].
  destruct (IH (Z.max x z)) as [E|E]; [|now right; right].
  rewrite E. destruct (Z.max_spec x z) as [[_ ->]|[_ ->]]; auto.
Qed.

(** [array_max] returns the greatest entry of a non-empty batch. *)
Lemma array_max_greatest (X : list Z) (m : Z) :
  In m X -> (forall x, In x X -> x <= m) -> array_max X = Ret m.
Proof.
  destruct X as [|x xs]; [intros []|]. intros Hin Hub. simpl. f_equal.
  apply Z.le_antisymm.
  - apply Hub. destruct (fold_max_in xs x) as [->|E]; [now left|now right].
  - destruct Hin as [->|Hin]; [apply fold_max_ge|now apply fold_max_upper].
Qed.

(** C3: on a layer whose [nV] is unset, a batch with maximum [m] such that
    [m + 1] is below the cap sets [nV] to [m + 1] without raising, and a
    second run of the hook, on any batch at all, leaves the layer as it is. *)
Theorem set_dimensions_infers_once (l : Layer) (X X' : list Z) (m : Z) :
  nV l = None ->
  In m X -> (forall x, In x X -> x <= m) ->
  m + 1 < 10000000 ->
  let l1 := fst (_set_dimensions_if_needed X l) in
  _set_dimensions_if_needed X l = (set_nV (Some (m + 1)) l, Ret tt) /\
  nV l1 = Some (m + 1) /\
  _set_dimensions_if_needed X' l1 = (l1, Ret tt).
Proof.
  intros Hn Hin Hub Hcap.
  assert (E : _set_dimensions_if_needed X l = (set_nV (Some (m + 1)) l, Ret tt)).
  { unfold _set_dimensions_if_needed, bind, gets, lift. rewrite Hn.
    rewrite (array_max_greatest X m Hin Hub).
    destruct (Z.leb_spec 10000000 (m + 1)); [lia|reflexivity]. }
  cbv zeta. rewrite E. simpl. repeat split; auto.
Qed.

Lemma set_dimensions_infers_once_witness :
  _set_dimensions_if_needed [0; 1; 5; 6] unconfigured
    = (set_nV (Some 7) unconfigured, Ret tt) /\
  _set_dimensions_if_needed [99; 100] (set_nV (Some 7) unconfigured)
    = (set_nV (Some 7) unconfigured, Ret tt).
Proof.
  destruct (set_dimensions_infers_once unconfigured [0; 1; 5; 6] [99; 100] 6)
    as (H1 & _ & H3).
  - reflexivity.
  - simpl; tauto.
  - simpl; intros x H; lia.
  - lia.
  - split; [exact H1|exact H3].
Defined.

(** C4: on a layer whose [nV] is unset, a batch whose maximum plus one
    reaches 10,000,000 makes the hook raise [ValueError] and leaves the
    layer exactly as it was: [nV] is still unset, and [vectors] and [W],
    where they did not exist, still do not. *)
Theorem set_dimensions_cap (l : Layer) (X : list Z) (m : Z) :
  nV l = None ->
  In m X -> (forall x, In x X -> x <= m) ->
  10000000 <= m + 1 ->
  let l1 := fst (_set_dimensions_if_needed X l) in
  _set_dimensions_if_needed X l = (l, Raise ValueError) /\
  nV l1 = None /\
  (vectors l = None -> vectors l1 = None) /\
  (W l = None -> W l1 = None).
Proof.
  intros Hn Hin Hub Hcap.
  assert (E : _set_dimensions_if_needed X l = (l, Raise ValueError)).
  { unfold _set_dimensions_if_needed, bind, gets, lift. rewrite Hn.
    rewrite (array_max_greatest X m Hin Hub).
    destruct (Z.leb_spec 10000000 (m + 1)); [reflexivity|lia]. }
  cbv zeta. rewrite E. simpl. auto.
Qed.

Lemma set_dimensions_cap_witness :
  _set_dimensions_if_needed [3; 9999999] unconfigured
    = (unconfigured, Raise ValueError).
Proof.
  destruct (set_dimensions_cap unconfigured [3; 9999999] 9999999) as (H1 & _).
  - reflexivity.
  - simpl; tauto.
  - simpl; intros x H; lia.
  - lia.
  - exact H1.
Defined.

(** ** Bucketed lookup *)

Lemma norm_index_in_range (n : nat) (i : Z) :
  0 <= i < Z.of_nat n -> norm_index n i = Some (Z.to_nat i).
Proof.
  intros H. unfold norm_index.
  destruct (Z.leb_spec 0 i); [|lia]. destruct (Z.ltb_spec i (Z.of_nat n)); [|lia].
  reflexivity.
Qed.

Lemma np_mod_bucket (n i : Z) : 0 < n -> np_mod n i = i mod n /\ 0 <= i mod n < n.
Proof.
  intros H. unfold np_mod. destruct (Z.eqb_spec n 0); [lia|].
  split; [reflexivity|]. apply Z.mod_pos_bound; lia.
Qed.

(** A gather with indices that are all in range returns one row per index. *)
Lemma getitem_in_range (a : matrix) (idx : list Z) :
  Forall (fun i => 0 <= i < Z.of_nat (length a)) idx ->
  exists rows, getitem a idx = Ret rows /\
    length rows = length idx /\
    forall k i, idx !! k = Some i -> rows !! k = a !! Z.to_nat i.
Proof.
  induction 1 as [|i idx Hi _ (rows & E & Hlen & Hrows)]; simpl.
  - exists []. repeat split; auto. intros k i; rewrite lookup_nil; discriminate.
  - rewrite (norm_index_in_range _ _ Hi). simpl.
    destruct (lookup_lt_is_Some_2 a (Z.to_nat i)) as [r Hr]; [lia|].
    rewrite Hr, E. simpl. exists (r :: rows). split; [reflexivity|].
    split; [simpl; congruence|].
    intros [|k] j; simpl; [intros [= <-]; now rewrite Hr|apply Hrows].
Qed.

(** C5: on a table of [nV > 0] rows, [_embed] leaves the layer alone and
    returns one row per ID; the row for ID [i], whatever its sign or size,
    is row [i mod nV] of [vectors], which exists; so two positions whose IDs
    have equal remainders hold the same row. *)
Theorem embed_selects_bucket (l : Layer) (vs : matrix) (n : Z) (ids : list Z) :
  vectors l = Some vs -> nV l = Some n -> 0 < n ->
  Z.of_nat (length vs) = n ->
  exists rows,
    _embed ids l = (l, Ret rows) /\
    length rows = length ids /\
    (forall k i, ids !! k = Some i ->
       0 <= i mod n < n /\
       is_Some (vs !! Z.to_nat (i mod n)) /\
       rows !! k = vs !! Z.to_nat (i mod n)) /\
    (forall k1 k2 i1 i2, ids !! k1 = Some i1 -> ids !! k2 = Some i2 ->
       i1 mod n = i2 mod n -> rows !! k1 = rows !! k2).
Proof.
  intros Hv Hn Hpos Hlen.
  destruct (getitem_in_range vs (map (np_mod n) ids)) as (rows & E & Hl & Hr).
  { apply Forall_map, Forall_forall. intros i _. simpl.
    destruct (np_mod_bucket n i Hpos) as [-> ?]. lia. }
  assert (Hrow : forall k i, ids !! k = Some i ->
            rows !! k = vs !! Z.to_nat (i mod n)).
  { intros k i Hk. rewrite (Hr k (np_mod n i)).
    - now destruct (np_mod_bucket n i Hpos) as [-> _].
    - now rewrite list_lookup_fmap, Hk. }
  exists rows. split; [|split; [|split]].
  - unfold _embed, bind, tensor, gets, lift. now rewrite Hv, Hn, E.
  - now rewrite Hl, length_map.
  - intros k i Hk. destruct (np_mod_bucket n i Hpos) as [_ Hb].
    split; [exact Hb|]. split; [|now apply Hrow].
    apply lookup_lt_is_Some_2. lia.
  - intros k1 k2 i1 i2 H1 H2 Heq.
    now rewrite (Hrow _ _ H1), (Hrow _ _ H2), Heq.
Qed.

Lemma embed_selects_bucket_witness :
  exists rows, _embed [0; 1; 5; -4] table5 = (table5, Ret rows) /\
               rows !! 1%nat = rows !! 3%nat.
Proof.
  destruct (embed_selects_bucket table5
              [[10; 11; 12]; [20; 21; 22]; [30; 31; 32]; [40; 41; 42];
               [50; 51; 52]] 5 [0; 1; 5; -4]) as (rows & E & _ & _ & H);
    [reflexivity|reflexivity|lia|reflexivity|].
  exists rows. split; [exact E|].
  apply (H 1%nat 3%nat 1 (-4)); reflexivity.
Defined.

(** ** Forward pass of [begin_update] *)

Ltac unfold_monad :=
  unfold bind, tensor, lift, gets, modify, ret, raise in *.

Section Forward.
Context {ops : Ops}.

(** C9: for every batch and every value of [drop], of any type,
    [begin_update] leaves the layer in the state [predict] leaves it in and
    returns, as the first component of its result, what [predict] returns
    (or raises what [predict] raises). *)
Theorem begin_update_output_is_predict {D : Type} (l : Layer) (ids : list Z)
    (drop : D) :
  fst (begin_update ids drop l) = fst (predict ids l) /\
  omap_outcome fst (snd (begin_update ids drop l)) = snd (predict ids l).
Proof.
  unfold begin_update, predict. unfold_monad.
  destruct (_embed ids l) as [l1 [vs|e]]; simpl; [|auto].
  destruct (W l1) as [w|]; simpl; [|auto].
  destruct (batch_dot vs w); simpl; auto.
Qed.

End Forward.

(** ** Backward pass of a static layer *)

Section Backward.
Context {ops : Ops}.

Lemma finish_update_static_state (l : Layer) ids vs g sgd :
  is_static l = true ->
  fst (finish_update ids vs g sgd l) = set_d_W (outer_acc (d_W l) g vs) l.
Proof.
  intros Hs. unfold finish_update, outer_acc. unfold_monad.
  destruct l as [st o m n w v dw dv k]; simpl in *; subst st.
  destruct dw as [dw|]; simpl; [|reflexivity].
  destruct (batch_outer g vs) as [o'|]; simpl; [|reflexivity].
  destruct (iadd dw o') as [dw'|]; simpl; [|reflexivity].
  destruct sgd as [f|]; simpl; [|reflexivity].
  destruct w; reflexivity.
Qed.

(** C6: on a layer built with [is_static=True], whatever the calls of
    [finish_update] (any gradients, any optimizer, any number of calls),
    [d_vectors] stays what it was, and [d_W] is what the accumulations
    [d_W += batch_outer(gradients, vectors)] of the calls, one after the
    other, make of it. *)
Theorem static_freezes_d_vectors (l : Layer) (cs : list call) :
  is_static l = true ->
  d_vectors (run_calls cs l) = d_vectors l /\
  d_W (run_calls cs l)
    = fold_left (fun d c => outer_acc d (c_gradients c) (c_vectors c)) cs (d_W l).
Proof.
  revert l; induction cs as [|c cs IH]; intros l Hs; simpl; [auto|].
  assert (E : run_call l c
              = set_d_W (outer_acc (d_W l) (c_gradients c) (c_vectors c)) l)
    by apply (finish_update_static_state _ _ _ _ _ Hs).
  rewrite E.
  destruct (IH (set_d_W (outer_acc (d_W l) (c_gradients c) (c_vectors c)) l))
    as [IH1 IH2]; [exact Hs|].
  split; [rewrite IH1|rewrite IH2]; reflexivity.
Qed.

(** C10: on a static layer an optimizer callback changes nothing in the
    layer, whatever it does to the two buffers it is handed: the layer after
    the call is the layer after the same call without a callback, [W]
    untouched; and when the backward pass itself succeeds the callback was
    handed the flattened [W] and the flattened, updated [d_W]. *)
Theorem static_callback_gets_copies (l : Layer) ids vs g (sgd : callback) :
  is_static l = true ->
  let l1 := fst (finish_update ids vs g (Some sgd) l) in
  l1 = fst (finish_update ids vs g None l) /\
  W l1 = W l /\
  (forall w dw, W l = Some w -> d_W l1 = Some dw ->
     snd (finish_update ids vs g None l) = Ret tt ->
     snd (finish_update ids vs g (Some sgd) l)
       = snd (sgd (flatten w) (flatten dw) (mem_id l))).
Proof.
  intros Hs l1. subst l1.
  rewrite !(finish_update_static_state _ _ _ _ _ Hs).
  split; [reflexivity|]. split; [reflexivity|].
  intros w dw Hw. unfold finish_update, outer_acc. unfold_monad.
  destruct l as [st o m n w0 v dw0 dv k]; simpl in *; subst st w0.
  destruct dw0 as [dw0|]; simpl; [|discriminate].
  destruct (batch_outer g vs) as [o'|]; simpl; [|discriminate].
  destruct (iadd dw0 o') as [dw'|]; simpl; [|discriminate].
  now intros [= <-] _.
Qed.

End Backward.

(** ** In-place addition *)

Lemma bcast_length {A} (n : nat) (b b' : list A) :
  bcast n b = Ret b' -> length b' = n.
Proof.
  unfold bcast. destruct (decide (length b = n)) as [E|_].
  - now intros [= <-].
  - destruct b as [|y [|? ?]]; try discriminate.
    intros [= <-]. apply length_replicate.
Qed.

(** Operands of one shape: the sum entry by entry. *)
Lemma iadd_same_shape (a b : matrix) :
  Forall2 (fun x y => length x = length y) a b ->
  iadd a b = Ret (zip_with (zip_with Z.add) a b).
Proof.
  intros H. unfold iadd, bcast. rewrite <- (Forall2_length _ _ _ H).
  destruct (decide (length a = length a)); [|contradiction]. simpl.
  induction H as [|x y a b Hxy _ IH]; simpl; [reflexivity|].
  unfold iadd_row at 1, bcast. rewrite Hxy.
  destruct (decide (length y = length y)); [|contradiction]. simpl.
  now rewrite IH.
Qed.

Lemma iadd_row_length (x y r : vec) : iadd_row x y = Ret r -> length r = length x.
Proof.
  unfold iadd_row. destruct (bcast (length x) y) as [y'|] eqn:E; [|discriminate].
  simpl. intros [= <-]. apply bcast_length in E.
  rewrite length_zip_with. lia.
Qed.

(** Whether a row can be added to another depends on the length of that
    other row alone. *)
Lemma iadd_row_same_length (x x' y r : vec) :
  iadd_row x y = Ret r -> length x' = length x ->
  exists r', iadd_row x' y = Ret r'.
Proof.
  unfold iadd_row. intros H E. rewrite E.
  destruct (bcast (length x) y); [|discriminate]. simpl. eauto.
Qed.

Lemma zip_add_doubles (x d : vec) :
  length d = length x ->
  Forall3 (fun x0 x1 x2 => x2 - x0 = 2 * (x1 - x0))
    x (zip_with Z.add x d) (zip_with Z.add (zip_with Z.add x d) d).
Proof.
  revert d; induction x as [|a x IH]; intros [|b d]; simpl; try discriminate.
  - constructor.
  - intros [= E]. constructor; [lia|auto].
Qed.

(** Adding the same row twice. *)
Lemma iadd_row_twice (x y r r2 : vec) :
  iadd_row x y = Ret r -> iadd_row r y = Ret r2 ->
  Forall3 (fun x0 x1 x2 => x2 - x0 = 2 * (x1 - x0)) x r r2.
Proof.
  intros H1 H2. pose proof (iadd_row_length _ _ _ H1) as Hl.
  unfold iadd_row in *. rewrite Hl in H2.
  destruct (bcast (length x) y) as [d|] eqn:E; [|discriminate].
  simpl in *. injection H1 as <-. injection H2 as <-.
  apply zip_add_doubles. now apply bcast_length in E.
Qed.

Lemma iadd_rows_Forall3 (a b c : matrix) :
  length b = length a ->
  iadd_rows a b = Ret c <-> Forall3 (fun x y r => iadd_row x y = Ret r) a b c.
Proof.
  revert b c; induction a as [|x a IH]; intros [|y b] c; simpl; try discriminate.
  - intros _. split; [intros [= <-]; constructor|now inversion 1].
  - intros [= E]. split.
    + destruct (iadd_row x y) as [r|] eqn:Hr; [|discriminate]. simpl.
      destruct (iadd_rows a b) as [rs|] eqn:Hrs; [|discriminate]. simpl.
      intros [= <-]. constructor; [exact Hr|]. now apply IH.
    + inversion 1 as [|? ? r ? ? rs Hr Hrs]; subst.
      rewrite Hr. simpl. apply IH in Hrs; [|exact E]. now rewrite Hrs.
Qed.

Lemma Forall3_exists {A B C} (R : A -> B -> C -> Prop) (a : list A) (b : list B) :
  Forall2 (fun x y => exists r, R x y r) a b -> exists c, Forall3 R a b c.
Proof.
  induction 1 as [|x y a b [r Hr] _ [c Hc]].
  - exists []. constructor.
  - exists (r :: c). now constructor.
Qed.

Lemma Forall3_lookup_intro {A B C} (R : A -> B -> C -> Prop)
    (a : list A) (b : list B) (c : list C) :
  length b = length a -> length c = length a ->
  (forall k x y z, a !! k = Some x -> b !! k = Some y -> c !! k = Some z ->
     R x y z) ->
  Forall3 R a b c.
Proof.
  revert b c; induction a as [|x a IH]; intros [|y b] [|z c]; simpl;
    try discriminate; intros Hb Hc H; constructor.
  - now apply (H 0%nat).
  - apply IH; [lia|lia|]. intros k. apply (H (S k)).
Qed.

Lemma iadd_length (a b c : matrix) : iadd a b = Ret c -> length c = length a.
Proof.
  unfold iadd. destruct (bcast (length a) b) as [b'|] eqn:E; [|discriminate].
  simpl. intros H. apply bcast_length in E.
  apply iadd_rows_Forall3 in H; [|exact E].
  now apply Forall3_length_lr in H.
Qed.

(** [a += b] done twice moves every entry of [a] twice as far. *)
Lemma iadd_twice (a b a1 : matrix) :
  iadd a b = Ret a1 -> exists a2, iadd a1 b = Ret a2 /\ doubled a a1 a2.
Proof.
  intros H. pose proof (iadd_length _ _ _ H) as Hl. unfold iadd in *.
  rewrite Hl. destruct (bcast (length a) b) as [b'|] eqn:E; [|discriminate].
  simpl in *. apply bcast_length in E.
  apply iadd_rows_Forall3 in H; [|exact E].
  destruct (Forall3_exists (fun x y r => iadd_row x y = Ret r) a1 b') as [a2 H2].
  { apply Forall2_same_length_lookup_2; [lia|]. intros k x1 y Hx1 Hy.
    destruct (lookup_lt_is_Some_2 a k) as [x Hx].
    { rewrite <- Hl. eapply lookup_lt_Some, Hx1. }
    pose proof (Forall3_lookup_lmr _ _ _ _ _ _ _ _ H Hx Hy Hx1) as Hr.
    apply (iadd_row_same_length x x1 y x1 Hr).
    now apply iadd_row_length in Hr. }
  exists a2. split; [apply iadd_rows_Forall3; [lia|exact H2]|].
  apply Forall3_lookup_intro.
  - exact Hl.
  - apply Forall3_length_lr in H2. lia.
  - intros k x x1 x2 Hx Hx1 Hx2.
    destruct (lookup_lt_is_Some_2 b' k) as [y Hy].
    { rewrite E. eapply lookup_lt_Some, Hx. }
    eapply iadd_row_twice.
    + exact (Forall3_lookup_lmr _ _ _ _ _ _ _ _ H Hx Hy Hx1).
    + exact (Forall3_lookup_lmr _ _ _ _ _ _ _ _ H2 Hx1 Hy Hx2).
Qed.

(** ** Gather and scatter *)

Lemma norm_index_lt (n : nat) (i : Z) (k : nat) :
  norm_index n i = Some k -> (k < n)%nat.
Proof.
  unfold norm_index.
  destruct (Z.leb_spec 0 i), (Z.ltb_spec i (Z.of_nat n)); simpl;
    try (intros [= <-]; lia);
    destruct (Z.leb_spec (- Z.of_nat n) i), (Z.ltb_spec i 0); simpl;
    try discriminate; intros [= <-]; lia.
Qed.

Lemma getitem_inv (a : matrix) (idx : list Z) (rows : matrix) :
  getitem a idx = Ret rows ->
  exists ks, Forall2 (fun i k => norm_index (length a) i = Some k) idx ks /\
             Forall2 (fun k r => a !! k = Some r) ks rows.
Proof.
  revert rows; induction idx as [|i idx IH]; intros rows; simpl.
  - intros [= <-]. exists []. split; constructor.
  - destruct (norm_index (length a) i) as [k|] eqn:Hk; simpl; [|discriminate].
    destruct (a !! k) as [r|] eqn:Hr; [|discriminate].
    destruct (getitem a idx) as [rs|]; simpl; [|discriminate].
    intros [= <-]. destruct (IH rs eq_refl) as (ks & H1 & H2).
    exists (k :: ks). split; constructor; auto.
Qed.

Lemma getitem_intro (a : matrix) (idx : list Z) (ks : list nat) (rows : matrix) :
  Forall2 (fun i k => norm_index (length a) i = Some k) idx ks ->
  Forall2 (fun k r => a !! k = Some r) ks rows ->
  getitem a idx = Ret rows.
Proof.
  intros H; revert rows; induction H as [|i k idx ks Hk _ IH]; intros rows.
  - now inversion 1.
  - inversion 1 as [|? r ? rs Hr Hrs]; subst. simpl.
    rewrite Hk. simpl. rewrite Hr, (IH rs Hrs). reflexivity.
Qed.

Lemma setitem_scatter (a : matrix) (idx : list Z) (ks : list nat) (rows : matrix) :
  Forall2 (fun i k => norm_index (length a) i = Some k) idx ks ->
  length rows = length ks ->
  setitem a idx rows = Ret (scatter a ks rows).
Proof.
  revert a idx rows.
  induction ks as [|k ks IH]; intros a idx rows H; inversion H as [|i ? idx' ? Hk Hks];
    subst; destruct rows as [|r rows]; simpl; try discriminate; [reflexivity|].
  intros [= E]. rewrite Hk. apply IH; [|exact E].
  now rewrite length_insert.
Qed.

Lemma scatter_length (a : matrix) (ks : list nat) (rows : matrix) :
  length (scatter a ks rows) = length a.
Proof.
  revert a rows; induction ks as [|k ks IH]; intros a [|r rows]; simpl; auto.
  now rewrite IH, length_insert.
Qed.

Lemma last_pos_lookup (ks : list nat) (k j : nat) :
  last_pos ks k = Some j -> ks !! j = Some k.
Proof.
  revert j; induction ks as [|k' ks IH]; intros j; simpl; [discriminate|].
  destruct (last_pos ks k) as [j'|].
  - intros [= <-]. now apply IH.
  - destruct (decide (k' = k)) as [->|_]; [|discriminate]. now intros [= <-].
Qed.

(** After a scatter a row is the last one stored at its number, and the old
    row where none was stored. *)
Lemma scatter_lookup (a : matrix) (ks : list nat) (rows : matrix) (k : nat) :
  Forall (fun k => (k < length a)%nat) ks ->
  length rows = length ks ->
  scatter a ks rows !! k
    = match last_pos ks k with
      | Some j => rows !! j
      | None => a !! k
      end.
Proof.
  revert a rows; induction ks as [|k' ks IH]; intros a [|r rows]; simpl;
    try discriminate; [reflexivity|].
  intros Hks [= E]. inversion Hks as [|? ? Hk' Hks']; subst.
  rewrite IH; [|now rewrite length_insert|exact E].
  destruct (last_pos ks k) as [j|]; [reflexivity|].
  destruct (decide (k' = k)) as [->|Hne]; simpl.
  - now apply list_lookup_insert_eq.
  - now apply list_lookup_insert_ne.
Qed.

Lemma gather_exists (a : matrix) (ks : list nat) :
  Forall (fun k => (k < length a)%nat) ks ->
  exists rows, Forall2 (fun k r => a !! k = Some r) ks rows.
Proof.
  induction 1 as [|k ks Hk _ [rows IH]].
  - exists []. constructor.
  - destruct (lookup_lt_is_Some_2 a k Hk) as [r Hr].
    exists (r :: rows). now constructor.
Qed.

Lemma doubled_row_refl (x : vec) :
  Forall3 (fun x0 x1 x2 => x2 - x0 = 2 * (x1 - x0)) x x x.
Proof. induction x; constructor; [lia|auto]. Qed.

(** [d[idx] += g] done twice: gather, add and scatter, where an index that
    repeats keeps the last row stored. The second run succeeds where the
    first did and moves every entry of [d] twice as far. *)
Lemma index_add_twice (d0 : matrix) (idx : list Z) (g rows0 rows0' d1 : matrix) :
  getitem d0 idx = Ret rows0 ->
  iadd rows0 g = Ret rows0' ->
  setitem d0 idx rows0' = Ret d1 ->
  exists rows1 rows1' d2,
    getitem d1 idx = Ret rows1 /\
    iadd rows1 g = Ret rows1' /\
    setitem d1 idx rows1' = Ret d2 /\
    doubled d0 d1 d2.
Proof.
  intros Hget Hadd Hset.
  destruct (getitem_inv _ _ _ Hget) as (ks & Hn & Hg).
  assert (Hks : Forall (fun k => (k < length d0)%nat) ks).
  { apply Forall_forall. intros k Hk.
    apply list_elem_of_lookup in Hk as [j Hj].
    destruct (Forall2_lookup_r _ _ _ _ _ Hn Hj) as (i & _ & Hi).
    eapply norm_index_lt, Hi. }
  pose proof (Forall2_length _ _ _ Hg) as Lg.
  pose proof (Forall2_length _ _ _ Hn) as Ln.
  pose proof (iadd_length _ _ _ Hadd) as La.
  rewrite (setitem_scatter d0 idx ks rows0' Hn) in Hset by lia.
  injection Hset as <-.
  set (d1 := scatter d0 ks rows0') in *.
  assert (Ld : length d1 = length d0) by apply scatter_length.
  unfold iadd in Hadd.
  destruct (bcast (length rows0) g) as [gb|] eqn:Eg; [|discriminate].
  simpl in Hadd. pose proof (bcast_length _ _ _ Eg) as Lb.
  apply iadd_rows_Forall3 in Hadd; [|exact Lb].
  assert (Hd1 : forall k, d1 !! k = match last_pos ks k with
                                    | Some j => rows0' !! j
                                    | None => d0 !! k
                                    end).
  { intros k. apply scatter_lookup; [exact Hks|lia]. }
  (* the rows of [d1] have the lengths of the rows of [d0] *)
  assert (Hlen : forall k x x1, d0 !! k = Some x -> d1 !! k = Some x1 ->
                                length x1 = length x).
  { intros k x x1 Hx. rewrite Hd1.
    destruct (last_pos ks k) as [j|] eqn:Hj; [|congruence].
    intros Hx1. apply last_pos_lookup in Hj.
    destruct (Forall2_lookup_l _ _ _ _ _ Hg Hj) as (x' & Hx' & Hk).
    assert (x' = x) by congruence. subst x'.
    destruct (lookup_lt_is_Some_2 gb j) as [y Hy].
    { rewrite Lb. eapply lookup_lt_Some, Hx'. }
    eapply iadd_row_length.
    exact (Forall3_lookup_lmr _ _ _ _ _ _ _ _ Hadd Hx' Hy Hx1). }
  destruct (gather_exists d1 ks) as [rows1 Hg1]; [now rewrite Ld|].
  pose proof (Forall2_length _ _ _ Hg1) as Lg1.
  destruct (Forall3_exists (fun x y r => iadd_row x y = Ret r) rows1 gb)
    as [rows1' Hadd1].
  { apply Forall2_same_length_lookup_2; [lia|]. intros j x1 y Hx1 Hy.
    destruct (lookup_lt_is_Some_2 ks j) as [k Hk].
    { rewrite Lg1. eapply lookup_lt_Some, Hx1. }
    pose proof (Forall2_lookup_lr _ _ _ _ _ _ Hg1 Hk Hx1) as Hk1.
    destruct (Forall2_lookup_l _ _ _ _ _ Hg Hk) as (x & Hx & Hk0).
    destruct (lookup_lt_is_Some_2 rows0' j) as [r Hr].
    { rewrite La. eapply lookup_lt_Some, Hx. }
    pose proof (Forall3_lookup_lmr _ _ _ _ _ _ _ _ Hadd Hx Hy Hr) as HR.
    apply (iadd_row_same_length x x1 y r HR). eauto. }
  pose proof (Forall3_length_lr _ _ _ _ Hadd1) as La1.
  exists rows1, rows1', (scatter d1 ks rows1').
  split; [|split; [|split]].
  - apply (getitem_intro d1 idx ks); [now rewrite Ld|exact Hg1].
  - unfold iadd. replace (length rows1) with (length rows0) by lia.
    rewrite Eg. simpl. apply iadd_rows_Forall3; [lia|exact Hadd1].
  - apply setitem_scatter; [now rewrite Ld|lia].
  - apply Forall3_lookup_intro; [lia|rewrite scatter_length; lia|].
    intros k x x1 x2 Hx Hx1.
    rewrite scatter_lookup; [|now rewrite Ld|lia].
    pose proof (Hd1 k) as Hk1. rewrite Hx1 in Hk1.
    destruct (last_pos ks k) as [j|] eqn:Hj.
    + intros Hx2. apply last_pos_lookup in Hj.
      pose proof (Forall2_lookup_l _ _ _ _ _ Hg Hj) as (x' & Hx' & Hk0).
      assert (x' = x) by congruence. subst x'.
      pose proof (Forall2_lookup_l _ _ _ _ _ Hg1 Hj) as (x1' & Hx1' & Hk1').
      assert (x1' = x1) by congruence. subst x1'.
      destruct (lookup_lt_is_Some_2 gb j) as [y Hy].
      { rewrite Lb. eapply lookup_lt_Some, Hx'. }
      eapply iadd_row_twice.
      * exact (Forall3_lookup_lmr _ _ _ _ _ _ _ _ Hadd Hx' Hy (eq_sym Hk1)).
      * exact (Forall3_lookup_lmr _ _ _ _ _ _ _ _ Hadd1 Hx1' Hy Hx2).
    + intros Hx2. assert (x1 = x) by congruence. assert (x2 = x) by congruence.
      subst. apply doubled_row_refl.
Qed.

Lemma doubled_refl (a : matrix) : doubled a a a.
Proof. induction a; constructor; [apply doubled_row_refl|auto]. Qed.

(** ** Gradient accumulation *)

Section Accumulation.
Context {ops : Ops}.


End Accumulation.


(** ** Static layers: instances *)

Lemma static_freezes_d_vectors_witness :
  d_vectors (@run_calls NumpyOps two_calls (tiny true)) = Some [[0]; [0]] /\
  d_W (@run_calls NumpyOps two_calls (tiny true)) = Some [[53]].
Proof.
  destruct (@static_freezes_d_vectors NumpyOps (tiny true) two_calls) as [H1 H2];
    [reflexivity|].
  split; [exact H1|exact H2].
Defined.

Lemma static_callback_gets_copies_witness :
  @finish_update NumpyOps [0; 2] [[5]; [5]] [[2]; [3]] (Some sgd_step) (tiny true)
  = (set_d_W (Some [[25]]) (tiny true), Ret tt).
Proof.
  destruct (@static_callback_gets_copies NumpyOps (tiny true) [0; 2]
              [[5]; [5]] [[2]; [3]] sgd_step) as (H1 & _ & H3); [reflexivity|].
  apply injective_projections; [exact H1|].
  apply (H3 [[1]] [[25]]); reflexivity.
Defined.

(** On a layer that is not static the callback is handed the buffers of the
    store themselves: what it does to them is done to the layer. *)
Example trainable_callback_reaches_store :
  fst (@finish_update NumpyOps [0; 2] [[5]; [5]] [[2]; [3]] (Some sgd_step)
         (tiny false))
  = mkLayer false 1 (Some 1) (Some 2) (Some [[-24]]) (Some [[2]; [7]])
            (Some [[0]]) (Some [[0]; [0]]) 7.
Proof. reflexivity. Qed.

(** ** Duplicate buckets in one batch *)

(** C2 (the code departs from it): in [tiny false] the IDs 0 and 2 share
    bucket 0 and the gradients with respect to their vectors are [[1]] and
    [[1]], so the accumulation the claim describes would leave 2 in row 0 of
    [d_vectors]. [d_vectors[ids % self.nV] += gradients] gathers the row
    once per position, adds, and stores the results one over the other:
    row 0 ends at 1. *)
Theorem finish_update_duplicate_bucket_overwrites :
  map (np_mod 2) [0; 2] = [0; 0] /\
  @batch_dot NumpyOps [[1]; [1]] (transpose [[1]]) = Ret [[1]; [1]] /\
  d_vectors (tiny false) = Some [[0]; [0]] /\
  d_vectors (fst (@finish_update NumpyOps [0; 2] [[5]; [5]] [[1]; [1]] None
                    (tiny false))) = Some [[1]; [0]].
Proof. repeat split. Qed.

(** The general shape of that behaviour: after the scatter of
    [d[idx] += g], a row that several positions name holds what the last of
    them stored. *)
Lemma setitem_last_wins (a : matrix) (idx : list Z) (ks : list nat)
    (rows a' : matrix) (k j : nat) :
  Forall2 (fun i k => norm_index (length a) i = Some k) idx ks ->
  length rows = length ks ->
  setitem a idx rows = Ret a' ->
  last_pos ks k = Some j ->
  a' !! k = rows !! j.
Proof.
  intros Hn Hl Hs Hj. rewrite (setitem_scatter a idx ks rows Hn Hl) in Hs.
  injection Hs as <-. rewrite scatter_lookup, Hj; [reflexivity| |exact Hl].
  apply Forall_forall. intros k' Hk'. apply list_elem_of_lookup in Hk' as [p Hp].
  destruct (Forall2_lookup_r _ _ _ _ _ Hn Hp) as (i & _ & Hi).
  eapply norm_index_lt, Hi.
Qed.

(** ** The parameter store *)

Lemma reshape_like_concat (a : matrix) (p : vec) :
  concat (reshape_like a p) = take (length (concat a)) p.
Proof.
  revert p; induction a as [|r a IH]; intros p; simpl; [now rewrite take_0|].
  now rewrite IH, length_app, take_take_drop.
Qed.

(** Reading the weight buffer back after a write of as many entries as it
    holds. *)
Lemma mem_weights_store (l : Layer) (p : vec) :
  length p = length (mem_weights l) ->
  mem_weights (store_weights p l) = p.
Proof.
  unfold mem_weights, store_weights, oflat, flatten.
  destruct l as [st o m n w v dw dv key]; simpl. rewrite length_app.
  intros Hp. destruct w as [w|], v as [v|]; simpl in *;
    rewrite ?reshape_like_concat, ?take_take_drop, ?app_nil_r, ?drop_0;
    try (apply take_ge; lia).
  destruct p; [reflexivity|discriminate].
Qed.

Lemma mem_weights_store_length (l : Layer) (p : vec) :
  length p = length (mem_weights l) ->
  length (mem_weights (store_weights p l)) = length (mem_weights l).
Proof. intros H. now rewrite mem_weights_store. Qed.

Lemma assign_all_same_length (buf p : vec) :
  length p = length buf -> assign_all buf p = Ret p.
Proof.
  intros H. unfold assign_all, bcast.
  destruct (decide (length p = length buf)); [reflexivity|contradiction].
Qed.

(** ** [use_params] *)

Section Snapshot.
Variables (l : Layer) (params : gmap Z vec) (alt : vec).
Hypothesis trainable : is_static l = false.
Hypothesis keyed : params !! mem_id l = Some alt.
Hypothesis fits : length alt = length (mem_weights l).

(** Entering the scope: the buffer holds [alt], the generator the backup. *)
Lemma use_params_enter :
  use_params_start params l
    = (store_weights alt l, Ret (AtYield (Some (mem_weights l)))) /\
  mem_weights (store_weights alt l) = alt.
Proof.
  split; [|now apply mem_weights_store].
  unfold use_params_start. unfold_monad.
  rewrite trainable, keyed, (assign_all_same_length _ _ fits). reflexivity.
Qed.

(** Leaving it normally, after a block that kept the size of the buffer:
    the buffer holds what it held before the scope. *)
Lemma use_params_exit_normal (body : M unit) (l2 : Layer) :
  body (store_weights alt l) = (l2, Ret tt) ->
  length (mem_weights l2) = length (mem_weights l) ->
  snd (with_use_params params body l) = Ret tt /\
  mem_weights (fst (with_use_params params body l)) = mem_weights l.
Proof.
  intros Hb Hl. unfold with_use_params.
  rewrite (proj1 use_params_enter), Hb. simpl. unfold_monad. simpl.
  split; [reflexivity|]. apply mem_weights_store. now rewrite Hl.
Qed.

(** Leaving it by an exception: the exception goes on to the caller and
    the layer stays as the block left it, [alt] still in the buffer where
    the block did not write to it. *)
Lemma use_params_exit_raise (body : M unit) (l2 : Layer) (e : exn) :
  body (store_weights alt l) = (l2, Raise e) ->
  with_use_params params body l = (l2, Raise e).
Proof.
  intros Hb. unfold with_use_params.
  now rewrite (proj1 use_params_enter), Hb.
Qed.

End Snapshot.

(** C1 (the code departs from it): [tiny false] holds the weights
    [[1; 5; 7]] and [params] maps its store to [[1; 2; 3]]. Inside the scope
    the buffer is [[1; 2; 3]], and after a block that returns it is
    [[1; 5; 7]] again, as the claim says; after a block that raises it is
    still [[1; 2; 3]], where the claim says [[1; 5; 7]]. *)
Theorem use_params_raise_skips_restore :
  let params : gmap Z vec := {[ 7 := [1; 2; 3] ]} in
  mem_weights (tiny false) = [1; 5; 7] /\
  mem_weights (fst (use_params_start params (tiny false))) = [1; 2; 3] /\
  mem_weights (fst (with_use_params params (ret tt) (tiny false))) = [1; 5; 7] /\
  snd (with_use_params params (raise (UserError 1)) (tiny false))
    = Raise (UserError 1) /\
  mem_weights (fst (with_use_params params (raise (UserError 1)) (tiny false)))
    = [1; 2; 3].
Proof. intros params. repeat split. Qed.

(** ** Batches that do not hold integers *)

(** C8, counterexample: a batch of booleans holds no integers and is not
    rejected: on [tiny false], [predict] returns the rows of the buckets 1
    and 0. *)
Lemma predict_accepts_bool_batch :
  non_integer (BoolArray [true; false]) /\
  @predict_any NumpyOps (BoolArray [true; false]) (tiny false)
    = (tiny false, Ret [[7]; [5]]).
Proof. split; [exact I|reflexivity]. Qed.

Section AnyBatch.
Context {ops : Ops}.

(** C8, amended: [predict] and the forward pass of [begin_update] make no
    check of their own. A batch of integers is looked up as it is and a
    batch of booleans as the IDs 0 and 1; a batch of floats is rejected, the
    layer unchanged, by the indexing of the table itself, with an
    [IndexError] once the table and [nV] exist. *)
Theorem predict_any_no_check {D : Type} (l : Layer) (drop : D) :
  (forall b, begin_update_any b drop l = predict_any b l) /\
  (forall ids, predict_any (IntArray ids) l = predict ids l) /\
  (forall bs, predict_any (BoolArray bs) l = predict (map Z.b2z bs) l) /\
  (forall xs, fst (predict_any (FloatArray xs) l) = l /\
     exists e, snd (predict_any (FloatArray xs) l) = Raise e /\
       (is_Some (vectors l) -> is_Some (nV l) -> e = IndexError)).
Proof.
  split; [reflexivity|]. split; [reflexivity|]. split.
  - intros bs. unfold predict_any, predict, _embed_any, _embed, np_mod_any.
    unfold getitem_any. unfold_monad.
    destruct (vectors l); [|reflexivity]. destruct (nV l); [|reflexivity].
    now rewrite (map_map Z.b2z).
  - intros xs. unfold predict_any, _embed_any. unfold_monad.
    destruct (vectors l) as [v|] eqn:Hv; simpl.
    + destruct (nV l) as [n|] eqn:Hn; simpl.
      * split; [reflexivity|]. now exists IndexError.
      * split; [reflexivity|]. exists TypeError. split; [reflexivity|].
        now intros _ [? [=]].
    + split; [reflexivity|]. exists TypeError. split; [reflexivity|].
      now intros [? [=]].
Qed.

End AnyBatch.

(** * Further properties of the code *)

(** ** The dimension hook *)

Lemma array_max_inv (X : list Z) (m : Z) :
  array_max X = Ret m -> In m X /\ forall x, In x X -> x <= m.
Proof.
  destruct X as [|x xs]; simpl; [discriminate|]. intros [= <-]. split.
  - destruct (fold_max_in xs x) as [->|H]; [now left|now right].
  - intros y [<-|Hy]; [apply fold_max_ge|now apply fold_max_upper].
Qed.

(** The hook writes to [nV] and to nothing else, whatever the batch and
    whether it returns or raises. *)
Theorem set_dimensions_only_writes_nV (l : Layer) (X : list Z) :
  fst (_set_dimensions_if_needed X l)
    = set_nV (nV (fst (_set_dimensions_if_needed X l))) l.
Proof.
  unfold _set_dimensions_if_needed. unfold_monad.
  destruct l as [st o m n w v dw dv key]; simpl.
  destruct n as [n|]; simpl; [reflexivity|].
  destruct (array_max X) as [mx|]; simpl; [|reflexivity].
  destruct (10000000 <=? mx + 1); reflexivity.
Qed.

(** The hook raises exactly when [nV] is unset and the batch is empty or
    holds an ID of 9,999,999 or more; what it raises is [ValueError], and
    the layer is then as it was. *)
Theorem set_dimensions_fails_iff (l : Layer) (X : list Z) :
  (snd (_set_dimensions_if_needed X l) <> Ret tt <->
     nV l = None /\ (X = [] \/ exists x, In x X /\ 9999999 <= x)) /\
  (snd (_set_dimensions_if_needed X l) <> Ret tt ->
     _set_dimensions_if_needed X l = (l, Raise ValueError)).
Proof.
  unfold _set_dimensions_if_needed. unfold_monad.
  destruct (nV l) as [n|] eqn:Hn; simpl.
  { split; [split; [congruence|intros [[=] _]]|congruence]. }
  destruct (array_max X) as [mx|] eqn:Hm; simpl.
  - destruct (array_max_inv _ _ Hm) as [Hin Hub].
    destruct (Z.leb_spec 10000000 (mx + 1)); simpl.
    + split; [|reflexivity]. split; [|discriminate].
      intros _. split; [reflexivity|]. right. exists mx. split; [exact Hin|lia].
    + split; [|congruence]. split; [congruence|].
      intros [_ [->|(x & Hx & Hbig)]]; [discriminate|].
      specialize (Hub x Hx). lia.
  - destruct X; [|discriminate]. injection Hm as <-. split; [|reflexivity].
    split; [|discriminate]. intros _. split; [reflexivity|now left].
Qed.

(** What the hook infers is one more than an ID of the batch, above every
    ID of the batch, and below the cap. *)
Theorem set_dimensions_infers_tight (l : Layer) (X : list Z) (n : Z) :
  nV l = None ->
  nV (fst (_set_dimensions_if_needed X l)) = Some n ->
  n < 10000000 /\ In (n - 1) X /\ forall x, In x X -> x < n.
Proof.
  intros Hn. unfold _set_dimensions_if_needed. unfold_monad. rewrite Hn.
  destruct (array_max X) as [mx|] eqn:Hm; simpl; [|congruence].
  destruct (array_max_inv _ _ Hm) as [Hin Hub].
  destruct (Z.leb_spec 10000000 (mx + 1)); simpl; [congruence|].
  intros [= <-]. split; [lia|]. split.
  - now replace (mx + 1 - 1) with mx by lia.
  - intros x Hx. specialize (Hub x Hx). lia.
Qed.

Lemma set_dimensions_infers_tight_witness :
  7 < 10000000 /\ In (7 - 1) [0; 1; 5; 6] /\
  forall x, In x [0; 1; 5; 6] -> x < 7.
Proof.
  apply (set_dimensions_infers_tight unconfigured [0; 1; 5; 6] 7); reflexivity.
Defined.

(** [nV] is written once: on a layer whose [nV] is set, no sequence of
    batches, empty or beyond the cap as they may be, changes anything. *)
Theorem set_dimensions_write_once (l : Layer) (Xs : list (list Z)) (n : Z) :
  nV l = Some n -> run_hooks Xs l = l.
Proof.
  intros Hn. unfold run_hooks. induction Xs as [|X Xs IH]; simpl; [reflexivity|].
  assert (E : fst (_set_dimensions_if_needed X l) = l).
  { unfold _set_dimensions_if_needed. unfold_monad. now rewrite Hn. }
  now rewrite E.
Qed.

Lemma set_dimensions_write_once_witness :
  run_hooks [[]; [99999999]; [3; 4]] table5 = table5.
Proof.
  apply (set_dimensions_write_once table5 [[]; [99999999]; [3; 4]] 5).
  reflexivity.
Defined.

(** ** Inference followed by lookup *)

(** A batch of IDs that are not negative, run through the hook on a layer
    whose [nV] is unset, gets a bucket per ID: the remainder of each of its
    IDs is the ID itself, and on a table of [nV] rows [_embed] returns row
    [x] for the ID [x]. *)
Theorem inferred_buckets_are_ids (l : Layer) (X : list Z) :
  nV l = None -> X <> [] ->
  (forall x, In x X -> 0 <= x < 9999999) ->
  exists n,
    _set_dimensions_if_needed X l = (set_nV (Some n) l, Ret tt) /\
    (forall x, In x X -> np_mod n x = x) /\
    (forall l2 vs, nV l2 = Some n -> vectors l2 = Some vs ->
       Z.of_nat (length vs) = n ->
       exists rows, _embed X l2 = (l2, Ret rows) /\
         forall k x, X !! k = Some x -> rows !! k = vs !! Z.to_nat x).
Proof.
  intros Hn Hne Hx.
  destruct (array_max X) as [mx|] eqn:Hm; [|destruct X; [congruence|discriminate]].
  destruct (array_max_inv _ _ Hm) as [Hin Hub].
  pose proof (Hx mx Hin) as Hmx.
  assert (Hmod : forall x, In x X -> np_mod (mx + 1) x = x).
  { intros x Hin'. unfold np_mod. destruct (Z.eqb_spec (mx + 1) 0); [lia|].
    apply Z.mod_small. specialize (Hub x Hin'). specialize (Hx x Hin'). lia. }
  exists (mx + 1). split; [|split].
  - unfold _set_dimensions_if_needed. unfold_monad. rewrite Hn, Hm.
    destruct (Z.leb_spec 10000000 (mx + 1)); [lia|reflexivity].
  - exact Hmod.
  - intros l2 vs Hn2 Hv Hlen.
    destruct (getitem_in_range vs (map (np_mod (mx + 1)) X)) as (rows & E & _ & Hr).
    { apply Forall_map, Forall_forall. intros x Hin'. apply list_elem_of_In in Hin'.
      simpl. rewrite (Hmod x Hin'). specialize (Hub x Hin'). specialize (Hx x Hin').
      lia. }
    exists rows. split.
    + unfold _embed. unfold_monad. now rewrite Hv, Hn2, E.
    + intros k x Hk. rewrite (Hr k (np_mod (mx + 1) x)).
      * rewrite Hmod; [reflexivity|]. apply list_elem_of_In.
        eapply list_elem_of_lookup_2, Hk.
      * now rewrite list_lookup_fmap, Hk.
Qed.

Lemma inferred_buckets_are_ids_witness :
  exists n, _set_dimensions_if_needed [0; 1; 5; 6] unconfigured
              = (set_nV (Some n) unconfigured, Ret tt) /\
            np_mod n 5 = 5.
Proof.
  destruct (inferred_buckets_are_ids unconfigured [0; 1; 5; 6])
    as (n & E & Hmod & _).
  - reflexivity.
  - discriminate.
  - simpl; intros x H; lia.
  - exists n. split; [exact E|]. apply Hmod. simpl; tauto.
Defined.

(** A batch whose greatest ID is -1 is not refused: the hook sets [nV] to 0.
    On the table of no rows that goes with it every lookup of a batch that
    is not empty is an [IndexError]; the empty batch gets the empty array. *)
Theorem negative_batch_infers_no_bucket (l : Layer) (X : list Z) :
  nV l = None -> In (-1) X -> (forall x, In x X -> x <= -1) ->
  _set_dimensions_if_needed X l = (set_nV (Some 0) l, Ret tt) /\
  (forall l2 i ids, nV l2 = Some 0 -> vectors l2 = Some [] ->
     _embed (i :: ids) l2 = (l2, Raise IndexError)) /\
  (forall l2, nV l2 = Some 0 -> vectors l2 = Some [] ->
     _embed [] l2 = (l2, Ret [])).
Proof.
  intros Hn Hin Hub. split; [|split].
  - unfold _set_dimensions_if_needed. unfold_monad.
    now rewrite Hn, (array_max_greatest X (-1) Hin Hub).
  - intros l2 i ids Hn2 Hv. unfold _embed. unfold_monad. now rewrite Hv, Hn2.
  - intros l2 Hn2 Hv. unfold _embed. unfold_monad. now rewrite Hv, Hn2.
Qed.

Lemma negative_batch_infers_no_bucket_witness :
  _set_dimensions_if_needed [-3; -1] unconfigured
    = (set_nV (Some 0) unconfigured, Ret tt).
Proof.
  destruct (negative_batch_infers_no_bucket unconfigured [-3; -1]) as [E _].
  - reflexivity.
  - simpl; tauto.
  - simpl; intros x H; lia.
  - exact E.
Defined.

(** ** The forward pass changes nothing *)

Section ForwardFrame.
Context {ops : Ops}.

Lemma embed_keeps_layer (ids : list Z) (l : Layer) : fst (_embed ids l) = l.
Proof.
  unfold _embed. unfold_monad.
  destruct (vectors l); simpl; [|reflexivity]. destruct (nV l); reflexivity.
Qed.


End ForwardFrame.

(** ** The backward pass without an optimizer *)

Section BackwardFrame.
Context {ops : Ops}.

(** Without an optimizer [finish_update] never touches the parameters or the
    dimensions: [W], [vectors], [nV], [nM], [nO], the static flag and the
    store identity are after the call what they were before, whether it
    returns or raises. *)
Theorem finish_update_keeps_parameters (l : Layer) (ids : list Z)
    (vs g : matrix) :
  let l1 := fst (finish_update ids vs g None l) in
  W l1 = W l /\ vectors l1 = vectors l /\ nV l1 = nV l /\ nM l1 = nM l /\
  nO l1 = nO l /\ is_static l1 = is_static l /\ mem_id l1 = mem_id l.
Proof.
  unfold finish_update. unfold_monad.
  destruct l as [st o m n w v dw dv key]; simpl.
  destruct dw as [dw|]; simpl; [|tauto].
  destruct (batch_outer g vs) as [out|]; simpl; [|tauto].
  destruct (iadd dw out) as [dw1|]; simpl; [|tauto].
  destruct st; simpl; [tauto|].
  destruct w as [w|]; simpl; [|tauto].
  destruct (batch_dot g (transpose w)) as [g2|]; simpl; [|tauto].
  destruct dv as [dv|]; simpl; [|tauto].
  destruct n as [n|]; simpl; [|tauto].
  destruct (getitem dv (map (np_mod n) ids)) as [rows|]; simpl; [|tauto].
  destruct (iadd rows g2) as [rows'|]; simpl; [|tauto].
  destruct (setitem dv (map (np_mod n) ids) rows') as [dv1|]; simpl; tauto.
Qed.

(** The two steps of the backward pass are not undone by a later failure:
    static or not, [d_W] is after the call what the accumulation
    [d_W += batch_outer(gradients, vectors)] made of it, also when the step
    on [d_vectors] raises afterwards; [d_vectors] changes only in a call
    that returns. *)
Theorem finish_update_steps (l : Layer) (ids : list Z) (vs g : matrix) :
  let r := finish_update ids vs g None l in
  d_W (fst r) = outer_acc (d_W l) g vs /\
  (snd r <> Ret tt -> d_vectors (fst r) = d_vectors l).
Proof.
  unfold finish_update, outer_acc. unfold_monad.
  destruct l as [st o m n w v dw dv key]; simpl.
  destruct dw as [dw|]; simpl; [|tauto].
  destruct (batch_outer g vs) as [out|]; simpl; [|tauto].
  destruct (iadd dw out) as [dw1|]; simpl; [|tauto].
  destruct st; simpl; [tauto|].
  destruct w as [w|]; simpl; [|tauto].
  destruct (batch_dot g (transpose w)) as [g2|]; simpl; [|tauto].
  destruct dv as [dv|]; simpl; [|tauto].
  destruct n as [n|]; simpl; [|tauto].
  destruct (getitem dv (map (np_mod n) ids)) as [rows|]; simpl; [|tauto].
  destruct (iadd rows g2) as [rows'|]; simpl; [|tauto].
  destruct (setitem dv (map (np_mod n) ids) rows') as [dv1|]; simpl; tauto.
Qed.

End BackwardFrame.

(** ** Buckets hit once *)

Lemma last_pos_None (ks : list nat) (k : nat) :
  last_pos ks k = None <-> forall j, ks !! j <> Some k.
Proof.
  induction ks as [|k' ks IH]; simpl.
  - split; [intros _ j; now rewrite lookup_nil|reflexivity].
  - destruct (last_pos ks k) as [j'|] eqn:E.
    + split; [discriminate|]. intros H. exfalso.
      apply (H (S j')). simpl. now apply last_pos_lookup.
    + destruct (decide (k' = k)) as [->|Hne].
      * split; [discriminate|]. intros H. now destruct (H 0%nat).
      * split; [|reflexivity]. intros _ [|j]; simpl; [congruence|].
        now apply IH.
Qed.

Lemma last_pos_NoDup (ks : list nat) (k j : nat) :
  NoDup ks -> ks !! j = Some k -> last_pos ks k = Some j.
Proof.
  intros Hnd Hj. destruct (last_pos ks k) as [j'|] eqn:E.
  - f_equal. apply last_pos_lookup in E.
    exact (proj1 (NoDup_alt ks) Hnd j' j k E Hj).
  - exfalso. exact (proj1 (last_pos_None ks k) E j Hj).
Qed.

Lemma iadd_row_sum (x y : vec) :
  length y = length x -> iadd_row x y = Ret (zip_with Z.add x y).
Proof.
  intros H. unfold iadd_row, bcast.
  destruct (decide (length y = length x)); [reflexivity|contradiction].
Qed.

Lemma norm_Forall2_in_range (n : nat) (idx : list Z) (ks : list nat) :
  Forall (fun i => 0 <= i < Z.of_nat n) idx ->
  Forall2 (fun i k => norm_index n i = Some k) idx ks ->
  ks = map Z.to_nat idx.
Proof.
  intros Hr H. induction H as [|i k idx ks Hk _ IH]; [reflexivity|].
  inversion Hr as [|? ? Hi Hr']; subst. simpl.
  rewrite (norm_index_in_range _ _ Hi) in Hk. injection Hk as <-.
  now rewrite IH.
Qed.

Section DistinctBuckets.
Context {ops : Ops}.

(** In a batch whose IDs fall into buckets that are pairwise distinct, the
    backward pass of a trainable layer does accumulate into [d_vectors]:
    the row of each ID grows by the row of [batch_dot(gradients, W.T)] at
    the position of that ID, their sum entry by entry when the two are of
    one length, and the rows of buckets that no ID of the batch falls into
    stay as they were. *)
Theorem finish_update_distinct_buckets (l l1 : Layer) (ids : list Z)
    (vs g w dv g2 : matrix) (n : Z) :
  is_static l = false ->
  nV l = Some n -> 0 < n ->
  W l = Some w ->
  d_vectors l = Some dv -> Z.of_nat (length dv) = n ->
  batch_dot g (transpose w) = Ret g2 -> length g2 = length ids ->
  NoDup (map (fun i => i mod n) ids) ->
  finish_update ids vs g None l = (l1, Ret tt) ->
  exists dv1,
    d_vectors l1 = Some dv1 /\ length dv1 = length dv /\
    (forall k i, ids !! k = Some i ->
       exists row grow r,
         dv !! Z.to_nat (i mod n) = Some row /\
         g2 !! k = Some grow /\
         iadd_row row grow = Ret r /\
         (length grow = length row -> r = zip_with Z.add row grow) /\
         dv1 !! Z.to_nat (i mod n) = Some r) /\
    (forall b, (forall i, In i ids -> Z.to_nat (i mod n) <> b) ->
       dv1 !! b = dv !! b).
Proof.
  intros Hs Hn Hpos Hw Hdv Hlen Hg2 Hl2 Hnd.
  assert (Hidx : map (np_mod n) ids = map (fun i => i mod n) ids).
  { apply map_ext. intros i. now destruct (np_mod_bucket n i Hpos). }
  unfold finish_update. unfold_monad.
  destruct l as [st o m n' w' v dw dv' key]; simpl in *. subst st n' w' dv'.
  destruct dw as [dw|]; simpl; [|discriminate].
  destruct (batch_outer g vs) as [out|]; simpl; [|discriminate].
  destruct (iadd dw out) as [dw1|]; simpl; [|discriminate].
  rewrite Hg2, Hidx. simpl.
  set (idx := map (fun i => i mod n) ids) in *.
  destruct (getitem dv idx) as [rows|] eqn:Er; simpl; [|discriminate].
  destruct (iadd rows g2) as [rows'|] eqn:Ea; simpl; [|discriminate].
  destruct (setitem dv idx rows') as [dv1|] eqn:Es; simpl; [|discriminate].
  intros [= <-]. simpl. exists dv1. split; [reflexivity|].
  assert (Hrange : Forall (fun i => 0 <= i < Z.of_nat (length dv)) idx).
  { apply Forall_map, Forall_forall. intros i _. simpl.
    destruct (np_mod_bucket n i Hpos). lia. }
  destruct (getitem_inv _ _ _ Er) as (ks & Hnorm & Hg).
  pose proof (norm_Forall2_in_range _ _ _ Hrange Hnorm) as Hks.
  pose proof (Forall2_length _ _ _ Hg) as Lg.
  pose proof (Forall2_length _ _ _ Hnorm) as Ln.
  pose proof (iadd_length _ _ _ Ea) as La.
  assert (Lidx : length idx = length ids) by apply length_map.
  rewrite (setitem_scatter dv idx ks rows' Hnorm) in Es by lia.
  injection Es as <-.
  assert (Hlt : Forall (fun k => (k < length dv)%nat) ks).
  { apply Forall_forall. intros k Hk. apply list_elem_of_lookup in Hk as [j Hj].
    destruct (Forall2_lookup_r _ _ _ _ _ Hnorm Hj) as (i & _ & Hi).
    eapply norm_index_lt, Hi. }
  assert (Hndk : NoDup ks).
  { rewrite Hks. apply NoDup_fmap_2_strong; [|exact Hnd].
    intros x y Hx Hy E. apply list_elem_of_In in Hx, Hy.
    rewrite Forall_forall in Hrange.
    pose proof (Hrange x (proj2 (list_elem_of_In _ _) Hx)).
    pose proof (Hrange y (proj2 (list_elem_of_In _ _) Hy)). lia. }
  unfold iadd, bcast in Ea.
  destruct (decide (length g2 = length rows)) as [_|Hne]; [|lia].
  simpl in Ea. apply iadd_rows_Forall3 in Ea; [|lia].
  split; [apply scatter_length|]. split.
  - intros k i Hk.
    assert (Hkk : ks !! k = Some (Z.to_nat (i mod n))).
    { rewrite Hks. unfold idx. now rewrite !list_lookup_fmap, Hk. }
    destruct (Forall2_lookup_l _ _ _ _ _ Hg Hkk) as (row & Hrow & Hd).
    destruct (lookup_lt_is_Some_2 g2 k) as [grow Hgrow].
    { rewrite Hl2. eapply lookup_lt_Some, Hk. }
    destruct (lookup_lt_is_Some_2 rows' k) as [r Hr].
    { rewrite La. eapply lookup_lt_Some, Hrow. }
    pose proof (Forall3_lookup_lmr _ _ _ _ _ _ _ _ Ea Hrow Hgrow Hr) as HR.
    cbv beta in HR. exists row, grow, r. repeat split; auto.
    + intros E. rewrite (iadd_row_sum _ _ E) in HR. congruence.
    + rewrite scatter_lookup; [|exact Hlt|lia].
      now rewrite (last_pos_NoDup ks _ k Hndk Hkk).
  - intros b Hb. rewrite scatter_lookup; [|exact Hlt|lia].
    destruct (last_pos ks b) as [j|] eqn:Ej; [|reflexivity].
    exfalso. apply last_pos_lookup in Ej. rewrite Hks in Ej. unfold idx in Ej.
    rewrite !list_lookup_fmap in Ej.
    destruct (ids !! j) as [i|] eqn:Hi; [|discriminate]. simpl in Ej.
    injection Ej as Ej. apply (Hb i); [|exact Ej].
    apply list_elem_of_In. eapply list_elem_of_lookup_2, Hi.
Qed.

End DistinctBuckets.

Lemma finish_update_distinct_buckets_witness :
  exists dv1,
    d_vectors (fst (@finish_update NumpyOps [0; 3] [[5]; [7]] [[2]; [3]] None
                      (tiny false))) = Some dv1 /\
    dv1 !! 0%nat = Some [2] /\ dv1 !! 1%nat = Some [3].
Proof.
  destruct (@finish_update_distinct_buckets NumpyOps (tiny false)
              (fst (@finish_update NumpyOps [0; 3] [[5]; [7]] [[2]; [3]] None
                      (tiny false)))
              [0; 3] [[5]; [7]] [[2]; [3]] [[1]] [[0]; [0]] [[2]; [3]] 2)
    as (dv1 & E & _ & H & _);
    [reflexivity|reflexivity|lia|reflexivity|reflexivity|reflexivity|
     reflexivity|reflexivity| |reflexivity|].
  - apply (bool_decide_unpack _). vm_compute. exact I.
  - exists dv1. split; [exact E|]. injection E as <-. split; reflexivity.
Defined.

(** ** The optimizer of a trainable layer *)

Lemma inplace_length (old new : vec) : length (inplace old new) = length old.
Proof.
  unfold inplace. rewrite length_take, length_app, length_drop. lia.
Qed.

Lemma inplace_same_length (old new : vec) :
  length new = length old -> inplace old new = new.
Proof.
  intros H. unfold inplace. rewrite <- H, drop_ge, app_nil_r by lia.
  apply take_ge. lia.
Qed.

Lemma mem_gradient_store (l : Layer) (p : vec) :
  length p = length (mem_gradient l) ->
  mem_gradient (store_gradient p l) = p.
Proof.
  unfold mem_gradient, store_gradient, oflat, flatten.
  destruct l as [st o m n w v dw dv key]; simpl. rewrite length_app.
  intros Hp. destruct dw as [dw|], dv as [dv|]; simpl in *;
    rewrite ?reshape_like_concat, ?take_take_drop, ?app_nil_r, ?drop_0;
    try (apply take_ge; lia).
  destruct p; [reflexivity|discriminate].
Qed.

Section Optimizer.
Context {ops : Ops}.

(** On a layer that is not static the optimizer works on the store itself:
    when the backward pass succeeds, the callback is handed the weight and
    gradient buffers as the pass left them, with the identity of the store
    as key; what it leaves in the two buffers is what the layer holds
    afterwards, and its outcome is the outcome of [finish_update]. *)
Theorem trainable_optimizer_reaches_store (l l1 : Layer) (ids : list Z)
    (vs g : matrix) (sgd : callback) :
  is_static l = false ->
  finish_update ids vs g None l = (l1, Ret tt) ->
  let r := sgd (mem_weights l1) (mem_gradient l1) (mem_id l) in
  exists l2,
    finish_update ids vs g (Some sgd) l = (l2, snd r) /\
    mem_weights l2 = inplace (mem_weights l1) (fst (fst r)) /\
    mem_gradient l2 = inplace (mem_gradient l1) (snd (fst r)) /\
    (length (fst (fst r)) = length (mem_weights l1) ->
       mem_weights l2 = fst (fst r)) /\
    (length (snd (fst r)) = length (mem_gradient l1) ->
       mem_gradient l2 = snd (fst r)).
Proof.
  intros Hs H r.
  set (l2 := store_gradient (inplace (mem_gradient l1) (snd (fst r)))
               (store_weights (inplace (mem_weights l1) (fst (fst r))) l1)).
  assert (Hw : mem_weights l2 = inplace (mem_weights l1) (fst (fst r))).
  { transitivity (mem_weights
        (store_weights (inplace (mem_weights l1) (fst (fst r))) l1)).
    - reflexivity.
    - apply mem_weights_store, inplace_length. }
  assert (Hg : mem_gradient l2 = inplace (mem_gradient l1) (snd (fst r))).
  { apply mem_gradient_store. rewrite inplace_length. reflexivity. }
  exists l2. split; [|split; [exact Hw|split; [exact Hg|split]]].
  - subst l2 r. revert H. unfold finish_update. unfold_monad.
    destruct l as [st o m n w v dw dv key]; simpl in *. subst st.
    destruct dw as [dw|]; simpl; [|discriminate].
    destruct (batch_outer g vs) as [out|]; simpl; [|discriminate].
    destruct (iadd dw out) as [dw1|]; simpl; [|discriminate].
    destruct w as [w|]; simpl; [|discriminate].
    destruct (batch_dot g (transpose w)) as [g2|]; simpl; [|discriminate].
    destruct dv as [dv|]; simpl; [|discriminate].
    destruct n as [n|]; simpl; [|discriminate].
    destruct (getitem dv (map (np_mod n) ids)) as [rows|]; simpl; [|discriminate].
    destruct (iadd rows g2) as [rows'|]; simpl; [|discriminate].
    destruct (setitem dv (map (np_mod n) ids) rows') as [dv1|]; simpl;
      [|discriminate].
    intros [= <-]. reflexivity.
  - intros E. now rewrite Hw, inplace_same_length.
  - intros E. now rewrite Hg, inplace_same_length.
Qed.

End Optimizer.

Lemma trainable_optimizer_reaches_store_witness :
  exists l2,
    @finish_update NumpyOps [0; 2] [[5]; [5]] [[2]; [3]] (Some sgd_step)
      (tiny false) = (l2, Ret tt) /\
    mem_weights l2 = [-24; 2; 7] /\ mem_gradient l2 = [0; 0; 0].
Proof.
  destruct (@trainable_optimizer_reaches_store NumpyOps (tiny false)
              (set_d_vectors (Some [[3]; [0]]) (set_d_W (Some [[25]]) (tiny false)))
              [0; 2] [[5]; [5]] [[2]; [3]] sgd_step)
    as (l2 & E & _ & _ & Hw & Hg); [reflexivity|reflexivity|].
  exists l2. split; [exact E|]. split; [apply Hw|apply Hg]; reflexivity.
Defined.

(** ** [use_params]: the other ways in and out *)

(** On a layer that is not static, with an alternate buffer of the length
    of the weight buffer under the key of the store: the block starts on a
    layer whose weights are the alternate buffer, and when it returns,
    having kept the size of the buffer, the weights after the scope are
    those of before it, whatever the block wrote into them meanwhile. *)
Theorem use_params_swaps_then_restores (l l2 : Layer) (params : gmap Z vec)
    (alt : vec) (body : M unit) :
  is_static l = false ->
  params !! mem_id l = Some alt ->
  length alt = length (mem_weights l) ->
  body (fst (use_params_start params l)) = (l2, Ret tt) ->
  length (mem_weights l2) = length (mem_weights l) ->
  mem_weights (fst (use_params_start params l)) = alt /\
  snd (with_use_params params body l) = Ret tt /\
  mem_weights (fst (with_use_params params body l)) = mem_weights l.
Proof.
  intros Hs Hk Hl.
  destruct (use_params_enter l params alt Hs Hk Hl) as [E Ha].
  rewrite E. simpl. intros Hb Hl2. split; [exact Ha|].
  exact (use_params_exit_normal l params alt Hs Hk Hl body l2 Hb Hl2).
Qed.

Lemma use_params_swaps_then_restores_witness :
  mem_weights (fst (with_use_params {[ 7 := [1; 2; 3] ]}
                      (modify (store_weights [9; 9; 9])) (tiny false)))
    = [1; 5; 7].
Proof.
  apply (use_params_swaps_then_restores (tiny false)
           (store_weights [9; 9; 9] (store_weights [1; 2; 3] (tiny false)))
           {[ 7 := [1; 2; 3] ]} [1; 2; 3] (modify (store_weights [9; 9; 9])));
    reflexivity.
Defined.

(** On a static layer, and on any layer whose store is no key of [params],
    the scope is transparent: the block runs on the layer as it is, and
    what the block leaves and returns or raises is what the statement
    leaves and returns or raises. *)
Theorem use_params_transparent (l : Layer) (params : gmap Z vec) (body : M unit) :
  is_static l = true \/ params !! mem_id l = None ->
  with_use_params params body l = body l.
Proof.
  intros H. unfold with_use_params, use_params_start. unfold_monad.
  destruct (is_static l); simpl.
  - destruct (body l) as [l2 [[]|e]]; reflexivity.
  - destruct H as [H|H]; [discriminate|]. rewrite H. simpl.
    destruct (body l) as [l2 [[]|e]]; reflexivity.
Qed.

Lemma use_params_transparent_witness :
  with_use_params {[ 8 := [1; 2; 3] ]} (raise (UserError 1)) (tiny false)
    = (tiny false, Raise (UserError 1)).
Proof.
  rewrite (use_params_transparent (tiny false) {[ 8 := [1; 2; 3] ]}
             (raise (UserError 1))); [reflexivity|].
  right. reflexivity.
Defined.

(** An alternate buffer that has neither the length of the weight buffer
    nor length one is refused on entry with a [ValueError]: the block does
    not run and the layer is as it was. *)
Theorem use_params_refuses_other_lengths (l : Layer) (params : gmap Z vec)
    (p : vec) (body : M unit) :
  is_static l = false ->
  params !! mem_id l = Some p ->
  length p <> length (mem_weights l) -> length p <> 1%nat ->
  with_use_params params body l = (l, Raise ValueError).
Proof.
  intros Hs Hk H1 H2. unfold with_use_params, use_params_start. unfold_monad.
  rewrite Hs, Hk. unfold assign_all, bcast.
  destruct (decide (length p = length (mem_weights l))); [contradiction|].
  destruct p as [|c [|c' p]]; simpl in *; try reflexivity. contradiction.
Qed.

Lemma use_params_refuses_other_lengths_witness :
  with_use_params {[ 7 := [1; 2] ]} (modify (store_weights [9; 9; 9]))
    (tiny false) = (tiny false, Raise ValueError).
Proof.
  apply (use_params_refuses_other_lengths (tiny false) {[ 7 := [1; 2] ]} [1; 2]);
    [reflexivity|reflexivity|simpl; lia|simpl; lia].
Defined.

(** An alternate buffer of one entry is broadcast: inside the scope every
    weight is that entry, and a block that returns and keeps the size of
    the buffer is followed by the weights of before the scope. *)
Theorem use_params_broadcasts_single (l : Layer) (params : gmap Z vec) (c : Z)
    (body : M unit) (l2 : Layer) :
  is_static l = false ->
  params !! mem_id l = Some [c] ->
  let inside := fst (use_params_start params l) in
  mem_weights inside = replicate (length (mem_weights l)) c /\
  (body inside = (l2, Ret tt) ->
   length (mem_weights l2) = length (mem_weights l) ->
   mem_weights (fst (with_use_params params body l)) = mem_weights l).
Proof.
  intros Hs Hk.
  assert (Hb : assign_all (mem_weights l) [c]
               = Ret (replicate (length (mem_weights l)) c)).
  { unfold assign_all, bcast.
    destruct (decide (length [c] = length (mem_weights l))) as [E|_];
      [|reflexivity].
    simpl in E. now rewrite <- E. }
  assert (Hst : use_params_start params l
            = (store_weights (replicate (length (mem_weights l)) c) l,
               Ret (AtYield (Some (mem_weights l))))).
  { unfold use_params_start. unfold_monad. now rewrite Hs, Hk, Hb. }
  cbv zeta. rewrite Hst. simpl. split.
  - apply mem_weights_store, length_replicate.
  - intros Hbody Hl. unfold with_use_params. rewrite Hst, Hbody. simpl.
    apply mem_weights_store. now rewrite Hl.
Qed.

Lemma use_params_broadcasts_single_witness :
  mem_weights (fst (use_params_start {[ 7 := [4] ]} (tiny false))) = [4; 4; 4].
Proof.
  apply (use_params_broadcasts_single (tiny false) {[ 7 := [4] ]} 4 (ret tt)
           (tiny false)); reflexivity.
Defined.

(** Scopes nest: with an alternate buffer for the store in each of two
    mappings, a block that returns and keeps the size of the buffer runs on
    the inner buffer, and after both scopes the weights are those of before
    the outer one. *)
Theorem use_params_nested (l l3 : Layer) (p1 p2 : gmap Z vec) (a1 a2 : vec)
    (body : M unit) :
  is_static l = false ->
  p1 !! mem_id l = Some a1 -> p2 !! mem_id l = Some a2 ->
  length a1 = length (mem_weights l) -> length a2 = length (mem_weights l) ->
  body (store_weights a2 (store_weights a1 l)) = (l3, Ret tt) ->
  length (mem_weights l3) = length (mem_weights l) ->
  mem_weights (store_weights a2 (store_weights a1 l)) = a2 /\
  snd (with_use_params p1 (with_use_params p2 body) l) = Ret tt /\
  mem_weights (fst (with_use_params p1 (with_use_params p2 body) l))
    = mem_weights l.
Proof.
  intros Hs H1 H2 L1 L2 Hb L3.
  pose proof (mem_weights_store l a1 L1) as Ha1.
  assert (L2' : length a2 = length (mem_weights (store_weights a1 l)))
    by now rewrite Ha1, L1.
  split; [now apply mem_weights_store|].
  destruct (use_params_exit_normal (store_weights a1 l) p2 a2 Hs H2 L2' body l3)
    as [Hi1 Hi2]; [exact Hb|now rewrite Ha1, L1|].
  apply (use_params_exit_normal l p1 a1 Hs H1 L1 (with_use_params p2 body)
           (fst (with_use_params p2 body (store_weights a1 l)))).
  - rewrite <- Hi1. apply surjective_pairing.
  - now rewrite Hi2, Ha1.
Qed.

Lemma use_params_nested_witness :
  mem_weights (fst (with_use_params {[ 7 := [1; 2; 3] ]}
                      (with_use_params {[ 7 := [4; 5; 6] ]} (ret tt))
                      (tiny false))) = [1; 5; 7].
Proof.
  apply (use_params_nested (tiny false)
           (store_weights [4; 5; 6] (store_weights [1; 2; 3] (tiny false)))
           {[ 7 := [1; 2; 3] ]} {[ 7 := [4; 5; 6] ]} [1; 2; 3] [4; 5; 6] (ret tt));
    reflexivity.
Defined.

(** ** What the forward pass can tell apart *)

Section Buckets.
Context {ops : Ops}.

(** Two batches whose IDs have, position by position, the same remainders
    modulo [nV] are indistinguishable: [predict] returns the same output, or
    raises the same exception, on both, and so does the forward pass of
    [begin_update]. *)
Theorem predict_depends_on_buckets {D : Type} (l : Layer) (n : Z)
    (ids1 ids2 : list Z) (drop : D) :
  nV l = Some n -> 0 < n ->
  Forall2 (fun i j => i mod n = j mod n) ids1 ids2 ->
  predict ids1 l = predict ids2 l /\
  omap_outcome fst (snd (begin_update ids1 drop l))
    = omap_outcome fst (snd (begin_update ids2 drop l)).
Proof.
  intros Hn Hpos H.
  assert (E : map (np_mod n) ids1 = map (np_mod n) ids2).
  { induction H as [|i j ids1 ids2 Hij _ IH]; [reflexivity|]. simpl.
    destruct (np_mod_bucket n i Hpos) as [-> _].
    destruct (np_mod_bucket n j Hpos) as [-> _]. now rewrite Hij, IH. }
  assert (E' : _embed ids1 l = _embed ids2 l).
  { unfold _embed. unfold_monad. destruct (vectors l); [|reflexivity].
    simpl. now rewrite Hn, E. }
  unfold predict, begin_update, bind. rewrite E'.
  destruct (_embed ids2 l) as [l1 [vs|e]]; simpl; [|auto].
  unfold_monad. destruct (W l1) as [w|]; simpl; [|auto].
  destruct (batch_dot vs w); simpl; auto.
Qed.

End Buckets.

Lemma predict_depends_on_buckets_witness :
  @predict NumpyOps [0; 1; 5; -4] (set_W (Some [[1; 0; 0]]) table5)
  = @predict NumpyOps [5; 6; 0; 1] (set_W (Some [[1; 0; 0]]) table5).
Proof.
  apply (@predict_depends_on_buckets NumpyOps unit
           (set_W (Some [[1; 0; 0]]) table5) 5 [0; 1; 5; -4] [5; 6; 0; 1] tt);
    [reflexivity|lia|repeat constructor].
Defined.



(** ** The hooks run on a batch *)

